(** * Shallow embedding of [Shared_Funcs/pemfc_transport_funcs.py]

    The two transport kernels of the PEMFC model:
    - [fickian_adf]: planar advection-diffusion flux between two nodes,
      reading properties from a Cantera-like object [gas] whose state it
      mutates;
    - [radial_fdiff]: radial shell diffusion rate, in two geometric variants.

    Floating-point numbers are modelled by exact rationals [Q]; every
    equation proved about that model is an exact identity in [Q].  Module
    [F64] repeats [fickian_adf] over Rocq's primitive binary64 floats, for
    the properties that depend on IEEE overflow and nan.  numpy arrays of
    species values are lists of [Q]; binary array operations follow numpy
    broadcasting for 1-D arrays (equal lengths, or one side of length 1,
    otherwise [ValueError]).  Python indexing [a[i]] accepts negative
    indices counted from the end and raises [IndexError] outside
    [-len a, len a). *)

From Stdlib Require Import QArith Qfield List ZArith Lia Bool.
From Stdlib Require PrimFloat SpecFloat FloatOps FloatAxioms.
Import ListNotations.

(** ** Python exceptions and results *)

Inductive py_exc : Type :=
  | IndexError          (* a[i] with i outside [-len a, len a) *)
  | ValueError          (* numpy broadcast failure; Python's invalid-argument error *)
  | UnboundLocalError   (* a local variable read before any assignment *)
  | CanteraError.       (* the property provider rejects a TDY state *)

Inductive result (A : Type) : Type :=
  | Ok (a : A)
  | Err (e : py_exc).
Arguments Ok {A} a.
Arguments Err {A} e.

Definition rbind {A B : Type} (r : result A) (k : A -> result B) : result B :=
  match r with
  | Ok a => k a
  | Err e => Err e
  end.

Definition rmap {A B : Type} (f : A -> B) (r : result A) : result B :=
  match r with
  | Ok a => Ok (f a)
  | Err e => Err e
  end.

(** ** numpy 1-D arrays of species values *)

Open Scope Q_scope.

Definition vec := list Q.

Fixpoint vzip (f : Q -> Q -> Q) (u v : vec) : vec :=
  match u, v with
  | a :: u', b :: v' => f a b :: vzip f u' v'
  | _, _ => []
  end.

(** [u op v] on two arrays, with numpy broadcasting. *)
Definition np_zip (f : Q -> Q -> Q) (u v : vec) : result vec :=
  if Nat.eqb (length u) (length v) then Ok (vzip f u v)
  else match u, v with
       | [a], _ => Ok (map (f a) v)
       | _, [b] => Ok (map (fun x => f x b) u)
       | _, _ => Err ValueError
       end.

Definition np_add := np_zip Qplus.
Definition np_sub := np_zip Qminus.
Definition np_mul := np_zip Qmult.

(** scalar * array, array * scalar, array / scalar, -array *)
Definition svmul (c : Q) (v : vec) : vec := map (fun x => c * x) v.
Definition vsmul (v : vec) (c : Q) : vec := map (fun x => x * c) v.
Definition vsdiv (v : vec) (c : Q) : vec := map (fun x => x / c) v.
Definition vneg (v : vec) : vec := map Qopp v.

(** Python [a[i]] on a list or 1-D array. *)
Definition py_index (a : vec) (i : Z) : result Q :=
  let n := Z.of_nat (length a) in
  if (0 <=? i)%Z && (i <? n)%Z then Ok (nth (Z.to_nat i) a 0)
  else if (- n <=? i)%Z && (i <? 0)%Z then Ok (nth (Z.to_nat (n + i)) a 0)
  else Err IndexError.

(** ** The property provider ([gas], a Cantera solution object)

    The provider's properties are functions of its current TDY state;
    [tdy_ok] tells which states the setter [gas.TDY = ...] accepts. *)

Record TDY : Type := mkTDY { T : Q; D : Q; Ydat : vec }.

Record provider : Type := mkProvider {
  tdy_ok : TDY -> bool;
  mix_diff_coeffs_mass : TDY -> vec;
  density_mass : TDY -> Q;
  viscosity : TDY -> Q;
  pressure : TDY -> Q;
  mass_fractions : TDY -> vec
}.

(** The mutable part of the [gas] object: its current state, and the
    history of the states assigned to it (most recent last). *)
Record gas : Type := mkGas { gas_state : TDY; gas_sets : list TDY }.

(** State-and-exception monad: a raised exception keeps the mutations made
    before it, as in Python. *)
Definition M (A : Type) : Type := gas -> result A * gas.

Definition ret {A : Type} (a : A) : M A := fun g => (Ok a, g).

Definition bind {A B : Type} (m : M A) (k : A -> M B) : M B :=
  fun g => match m g with
           | (Ok a, g') => k a g'
           | (Err e, g') => (Err e, g')
           end.

Definition lift {A : Type} (r : result A) : M A := fun g => (r, g).

Notation "x <- m ;; k" := (bind m (fun x => k))
  (at level 61, m at next level, right associativity).

Section Provider.
Variable gasobj : provider.

(** [gas.TDY = s] *)
Definition set_TDY (s : TDY) : M unit :=
  fun g => if tdy_ok gasobj s
           then (Ok tt, mkGas s (gas_sets g ++ [s]))
           else (Err CanteraError, g).

(** reading a property of the current state *)
Definition get {A : Type} (f : provider -> TDY -> A) : M A :=
  fun g => (Ok (f gasobj (gas_state g)), g).

End Provider.

(** ** [fickian_adf] *)

(** the dictionary [p] of [fickian_adf] *)
Record adf_params : Type := mkAdfParams {
  wt1 : Q;          (* p['wt1'] *)
  wt2 : Q;          (* p['wt2'] *)
  K_g : Q;          (* p['K_g'] *)
  inv_dy : Q;       (* p['1/dy'] *)
  eps_tau2 : Q      (* p['eps/tau2'] *)
}.

(** the properties read at one node: D_k, rho, mu, P, Y *)
Record node_props : Type := mkProps {
  pr_D_k : vec; pr_rho : Q; pr_mu : Q; pr_P : Q; pr_Y : vec
}.

Definition read_props (gasobj : provider) : M node_props :=
  D_k <- get gasobj mix_diff_coeffs_mass ;;
  rho <- get gasobj density_mass ;;
  mu <- get gasobj viscosity ;;
  P <- get gasobj pressure ;;
  Y <- get gasobj mass_fractions ;;
  ret (mkProps D_k rho mu P Y).

(** lines 32, 41 and 46-53: averages and the two driving terms
    (J_conv, J_diff), from the properties read at the two nodes *)
Definition adf_terms (s1 s2 : node_props) (p : adf_params) : result (vec * vec) :=
  let rho_k1 := svmul (pr_rho s1) (pr_Y s1) in
  let rho_k2 := svmul (pr_rho s2) (pr_Y s2) in
  rbind (np_add (svmul (wt1 p) (pr_D_k s1)) (svmul (wt2 p) (pr_D_k s2))) (fun D_k =>
  let rho := wt1 p * pr_rho s1 + wt2 p * pr_rho s2 in
  let mu := wt1 p * pr_mu s1 + wt2 p * pr_mu s2 in
  rbind (np_add (svmul (wt1 p) rho_k1) (svmul (wt2 p) rho_k2)) (fun rho_k =>
  let J_conv :=
    vsdiv (vsmul (vsmul (vsmul (vneg rho_k) (K_g p)) (pr_P s2 - pr_P s1)) (inv_dy p)) mu in
  rbind (np_sub (pr_Y s2) (pr_Y s1)) (fun dY =>
  rbind (np_mul (vsmul (svmul (- eps_tau2 p) D_k) rho) dY) (fun J =>
  Ok (J_conv, vsmul J (inv_dy p)))))).

(** line 56: [mass_flux = tog*(J_conv + J_diff)] *)
Definition adf_flux (s1 s2 : node_props) (p : adf_params) (tog : Q) : result vec :=
  rbind (adf_terms s1 s2 p) (fun '(J_conv, J_diff) =>
  rbind (np_add J_conv J_diff) (fun J => Ok (svmul tog J))).

Definition fickian_adf (TDY1 TDY2 : TDY) (gasobj : provider) (p : adf_params)
    (tog : Q) : M vec :=
  _ <- set_TDY gasobj TDY1 ;;
  s1 <- read_props gasobj ;;
  _ <- set_TDY gasobj TDY2 ;;
  s2 <- read_props gasobj ;;
  lift (adf_flux s1 s2 p tog).

(** ** [radial_fdiff] *)

(** the dictionary [p] of [radial_fdiff] *)
Record rad_params : Type := mkRadParams {
  D_eff_naf : Q;        (* p['D_eff_naf'] *)
  p_eff_SAnaf : Q;      (* p['p_eff_SAnaf'] *)
  eps_tau2_n2 : Q;      (* p['eps/tau2_n2'] *)
  r_jph : vec;          (* p['r_jph'] *)
  inv_dr : vec;         (* p['1/dr'] *)
  inv_r_j : vec;        (* p['1/r_j'] *)
  inv_t_shl : vec       (* p['1/t_shl'] *)
}.

(** the shared base term of lines 89-90 and 92-93, evaluated left to right *)
Definition radial_base (rho_k1 rho_k2 : vec) (p : rad_params) (node : Z) : result vec :=
  let c := D_eff_naf p * p_eff_SAnaf p * eps_tau2_n2 p in
  rbind (py_index (r_jph p) node) (fun r =>
  rbind (np_sub rho_k1 rho_k2) (fun d =>
  rbind (py_index (inv_dr p) node) (fun dr =>
  Ok (svmul c (vsmul (svmul (r ^ 2) d) dr))))).

(** No branch assigns [drho_dt] when [ver] is neither 1 nor 2, so
    [return drho_dt] raises UnboundLocalError.  [flag] is never read. *)
Definition radial_fdiff (rho_k1 rho_k2 : vec) (p : rad_params) (node : Z)
    (ver : Z) (flag : Z) : result vec :=
  if (ver =? 1)%Z then radial_base rho_k1 rho_k2 p node
  else if (ver =? 2)%Z then
    rbind (radial_base rho_k1 rho_k2 p node) (fun b =>
    rbind (py_index (inv_r_j p) node) (fun rj =>
    rbind (py_index (inv_t_shl p) node) (fun ts =>
    Ok (vsmul (vsmul b (rj ^ 2)) ts))))
  else Err UnboundLocalError.

(** ** [fickian_adf] in binary64

    The same code with numpy's float64 arithmetic, as Rocq's primitive
    IEEE-754 binary64 floats (round to nearest even; overflow gives
    [infinity]; [0 * infinity] and [0 / 0] give [nan]).  Arrays,
    broadcasting, the provider and the state monad are as above, with
    [float] in place of [Q]. *)
Module F64.
Import PrimFloat.
Local Open Scope float_scope.

Definition fvec := list float.

Fixpoint vzip (f : float -> float -> float) (u v : fvec) : fvec :=
  match u, v with
  | a :: u', b :: v' => f a b :: vzip f u' v'
  | _, _ => []
  end.

Definition np_zip (f : float -> float -> float) (u v : fvec) : result fvec :=
  if Nat.eqb (length u) (length v) then Ok (vzip f u v)
  else match u, v with
       | [a], _ => Ok (map (f a) v)
       | _, [b] => Ok (map (fun x => f x b) u)
       | _, _ => Err ValueError
       end.

Definition np_add := np_zip add.
Definition np_sub := np_zip sub.
Definition np_mul := np_zip mul.

Definition svmul (c : float) (v : fvec) : fvec := map (fun x => c * x) v.
Definition vsmul (v : fvec) (c : float) : fvec := map (fun x => x * c) v.
Definition vsdiv (v : fvec) (c : float) : fvec := map (fun x => x / c) v.
Definition vneg (v : fvec) : fvec := map opp v.

Record TDY : Type := mkTDY { T : float; D : float; Ydat : fvec }.

Record provider : Type := mkProvider {
  tdy_ok : TDY -> bool;
  mix_diff_coeffs_mass : TDY -> fvec;
  density_mass : TDY -> float;
  viscosity : TDY -> float;
  pressure : TDY -> float;
  mass_fractions : TDY -> fvec
}.

Record gas : Type := mkGas { gas_state : TDY; gas_sets : list TDY }.

Definition M (A : Type) : Type := gas -> result A * gas.

Definition ret {A : Type} (a : A) : M A := fun g => (Ok a, g).

Definition bind {A B : Type} (m : M A) (k : A -> M B) : M B :=
  fun g => match m g with
           | (Ok a, g') => k a g'
           | (Err e, g') => (Err e, g')
           end.

Definition lift {A : Type} (r : result A) : M A := fun g => (r, g).

Definition set_TDY (gasobj : provider) (s : TDY) : M unit :=
  fun g => if tdy_ok gasobj s
           then (Ok tt, mkGas s (gas_sets g ++ [s]))
           else (Err CanteraError, g).

Definition get {A : Type} (gasobj : provider) (f : provider -> TDY -> A) : M A :=
  fun g => (Ok (f gasobj (gas_state g)), g).

Record adf_params : Type := mkAdfParams {
  wt1 : float; wt2 : float; K_g : float; inv_dy : float; eps_tau2 : float
}.

Record node_props : Type := mkProps {
  pr_D_k : fvec; pr_rho : float; pr_mu : float; pr_P : float; pr_Y : fvec
}.

Definition read_props (gasobj : provider) : M node_props :=
  bind (get gasobj mix_diff_coeffs_mass) (fun D_k =>
  bind (get gasobj density_mass) (fun rho =>
  bind (get gasobj viscosity) (fun mu =>
  bind (get gasobj pressure) (fun P =>
  bind (get gasobj mass_fractions) (fun Y =>
  ret (mkProps D_k rho mu P Y)))))).

Definition adf_terms (s1 s2 : node_props) (p : adf_params) : result (fvec * fvec) :=
  let rho_k1 := svmul (pr_rho s1) (pr_Y s1) in
  let rho_k2 := svmul (pr_rho s2) (pr_Y s2) in
  rbind (np_add (svmul (wt1 p) (pr_D_k s1)) (svmul (wt2 p) (pr_D_k s2))) (fun D_k =>
  let rho := wt1 p * pr_rho s1 + wt2 p * pr_rho s2 in
  let mu := wt1 p * pr_mu s1 + wt2 p * pr_mu s2 in
  rbind (np_add (svmul (wt1 p) rho_k1) (svmul (wt2 p) rho_k2)) (fun rho_k =>
  let J_conv :=
    vsdiv (vsmul (vsmul (vsmul (vneg rho_k) (K_g p)) (pr_P s2 - pr_P s1)) (inv_dy p)) mu in
  rbind (np_sub (pr_Y s2) (pr_Y s1)) (fun dY =>
  rbind (np_mul (vsmul (svmul (- eps_tau2 p) D_k) rho) dY) (fun J =>
  Ok (J_conv, vsmul J (inv_dy p)))))).

Definition adf_flux (s1 s2 : node_props) (p : adf_params) (tog : float) : result fvec :=
  rbind (adf_terms s1 s2 p) (fun '(J_conv, J_diff) =>
  rbind (np_add J_conv J_diff) (fun J => Ok (svmul tog J))).

Definition fickian_adf (TDY1 TDY2 : TDY) (gasobj : provider) (p : adf_params)
    (tog : float) : M fvec :=
  bind (set_TDY gasobj TDY1) (fun _ =>
  bind (read_props gasobj) (fun s1 =>
  bind (set_TDY gasobj TDY2) (fun _ =>
  bind (read_props gasobj) (fun s2 =>
  lift (adf_flux s1 s2 p tog))))).

Definition props_at (gasobj : provider) (s : TDY) : node_props :=
  mkProps (mix_diff_coeffs_mass gasobj s) (density_mass gasobj s)
          (viscosity gasobj s) (pressure gasobj s) (mass_fractions gasobj s).

(** the un-gated sum [J_conv + J_diff] of line 56 *)
Definition ungated (s1 s2 : node_props) (p : adf_params) : result fvec :=
  rbind (adf_terms s1 s2 p) (fun '(J_conv, J_diff) => np_add J_conv J_diff).

End F64.

(** ** Exact identities of the rational operations

    [Q] operations do not normalise, so the following hold as equalities
    of representations, not only up to [Qeq]. *)

Lemma Qmult_opp_l_eq (a b : Q) : (- a) * b = - (a * b).
Proof. destruct a as [an ad], b as [bn bd]; unfold Qmult, Qopp; simpl; f_equal; ring. Qed.

Lemma Qmult_opp_r_eq (a b : Q) : a * (- b) = - (a * b).
Proof. destruct a as [an ad], b as [bn bd]; unfold Qmult, Qopp; simpl; f_equal; ring. Qed.

Lemma Qdiv_opp_l_eq (a b : Q) : (- a) / b = - (a / b).
Proof. unfold Qdiv; apply Qmult_opp_l_eq. Qed.

Lemma Qminus_swap_eq (a b : Q) : b - a = - (a - b).
Proof.
  destruct a as [an ad], b as [bn bd]; unfold Qminus, Qplus, Qopp; simpl.
  f_equal; [ring | apply Pos.mul_comm].
Qed.

Lemma Qplus_comm_eq (a b : Q) : a + b = b + a.
Proof.
  destruct a as [an ad], b as [bn bd]; unfold Qplus; simpl.
  f_equal; [ring | apply Pos.mul_comm].
Qed.

Lemma Qplus_opp_eq (a b : Q) : (- a) + (- b) = - (a + b).
Proof. destruct a as [an ad], b as [bn bd]; unfold Qplus, Qopp; simpl; f_equal; ring. Qed.

Create Rewrite HintDb qopp.
#[export] Hint Rewrite Qmult_opp_l_eq Qmult_opp_r_eq Qdiv_opp_l_eq Qplus_opp_eq : qopp.

(** ** Arrays *)

Lemma vzip_length (f : Q -> Q -> Q) (u v : vec) :
  length (vzip f u v) = Nat.min (length u) (length v).
Proof. revert v; induction u as [|a u IH]; intros [|b v]; simpl; auto. Qed.

Lemma vzip_nth (f : Q -> Q -> Q) (u v : vec) (k : nat) :
  (k < length u)%nat -> (k < length v)%nat ->
  nth k (vzip f u v) 0 = f (nth k u 0) (nth k v 0).
Proof.
  revert v k; induction u as [|a u IH]; intros [|b v] k Hu Hv; simpl in *; try lia.
  destruct k; [reflexivity | apply IH; lia].
Qed.

Lemma map_nth_lt (f : Q -> Q) (l : vec) (k : nat) :
  (k < length l)%nat -> nth k (map f l) 0 = f (nth k l 0).
Proof.
  revert k; induction l as [|a l IH]; intros k Hk; simpl in *; [lia|].
  destruct k; [reflexivity | apply IH; lia].
Qed.

Lemma vzip_minus_swap (u v : vec) : vzip Qminus v u = vneg (vzip Qminus u v).
Proof.
  revert v; induction u as [|a u IH]; intros [|b v]; simpl; try reflexivity.
  rewrite IH, Qminus_swap_eq; reflexivity.
Qed.

Lemma vzip_plus_comm (u v : vec) : vzip Qplus v u = vzip Qplus u v.
Proof.
  revert v; induction u as [|a u IH]; intros [|b v]; simpl; try reflexivity.
  rewrite IH, Qplus_comm_eq; reflexivity.
Qed.

Lemma np_zip_eq_length (f : Q -> Q -> Q) (u v : vec) :
  length u = length v -> np_zip f u v = Ok (vzip f u v).
Proof. intros H; unfold np_zip; rewrite H, Nat.eqb_refl; reflexivity. Qed.

Lemma np_sub_swap (u v : vec) : np_sub v u = rmap vneg (np_sub u v).
Proof.
  unfold np_sub, np_zip; rewrite Nat.eqb_sym.
  destruct (Nat.eqb (length u) (length v)) eqn:E.
  - simpl; rewrite vzip_minus_swap; reflexivity.
  - destruct u as [|a [|a' u]], v as [|b [|b' v]]; simpl in E;
      try discriminate; cbn -[map]; try reflexivity; f_equal;
      unfold vneg; rewrite map_map; apply map_ext; intros x; apply Qminus_swap_eq.
Qed.

(** ** Python indexing *)

Definition py_oob (a : vec) (i : Z) : Prop :=
  ~ (- Z.of_nat (length a) <= i < Z.of_nat (length a))%Z.

Lemma py_index_in (a : vec) (i : Z) :
  (0 <= i < Z.of_nat (length a))%Z -> py_index a i = Ok (nth (Z.to_nat i) a 0).
Proof.
  intros H; unfold py_index.
  replace ((0 <=? i)%Z && (i <? Z.of_nat (length a))%Z) with true; [reflexivity|].
  symmetry; apply andb_true_iff; split; [apply Z.leb_le | apply Z.ltb_lt]; lia.
Qed.

Lemma py_index_cases (a : vec) (i : Z) :
  (exists x, py_index a i = Ok x /\ ~ py_oob a i)
  \/ (py_index a i = Err IndexError /\ py_oob a i).
Proof.
  unfold py_index, py_oob.
  destruct ((0 <=? i)%Z && (i <? Z.of_nat (length a))%Z) eqn:E1.
  - left; eexists; split; [reflexivity|].
    apply andb_true_iff in E1; destruct E1 as [E1 E2];
      apply Z.leb_le in E1; apply Z.ltb_lt in E2; lia.
  - destruct ((- Z.of_nat (length a) <=? i)%Z && (i <? 0)%Z) eqn:E2.
    + left; eexists; split; [reflexivity|].
      apply andb_true_iff in E2; destruct E2 as [E2 E3];
        apply Z.leb_le in E2; apply Z.ltb_lt in E3; lia.
    + right; split; [reflexivity|].
      apply andb_false_iff in E1; apply andb_false_iff in E2.
      destruct E1 as [E1|E1]; [apply Z.leb_gt in E1 | apply Z.ltb_ge in E1];
      destruct E2 as [E2|E2]; try (apply Z.leb_gt in E2); try (apply Z.ltb_ge in E2); lia.
Qed.

Lemma py_index_err (a : vec) (i : Z) (e : py_exc) :
  py_index a i = Err e -> e = IndexError.
Proof.
  destruct (py_index_cases a i) as [[x [H _]]|[H _]]; rewrite H; congruence.
Qed.

(** ** Properties of [radial_fdiff] *)

Lemma radial_base_swap (rho_k1 rho_k2 : vec) (p : rad_params) (node : Z) :
  radial_base rho_k2 rho_k1 p node = rmap vneg (radial_base rho_k1 rho_k2 p node).
Proof.
  unfold radial_base.
  destruct (py_index (r_jph p) node) as [r|e]; cbn -[np_sub py_index]; [|reflexivity].
  rewrite np_sub_swap.
  destruct (np_sub rho_k1 rho_k2) as [d|e]; cbn -[py_index]; [|reflexivity].
  destruct (py_index (inv_dr p) node) as [dr|e]; simpl; [|reflexivity].
  f_equal; unfold svmul, vsmul, vneg; rewrite !map_map; apply map_ext; intros x.
  autorewrite with qopp; reflexivity.
Qed.

(** Example parameters: unit coefficients, two nodes. *)
Definition rad_ex : rad_params :=
  mkRadParams 1 1 1 [1; 2] [1; 1] [1; 1] [1; 1].

(** "Invalid-argument failure": Python's ValueError. *)
Definition invalid_argument_failure (r : result vec) : Prop := r = Err ValueError.

(** C10: [radial_fdiff] never reads its sixth argument [flag]: two calls that
    differ only in [flag] return the same result, for every variant. *)
Theorem radial_fdiff_flag_independent (rho_k1 rho_k2 : vec) (p : rad_params)
    (node ver flag1 flag2 : Z) :
  radial_fdiff rho_k1 rho_k2 p node ver flag1 = radial_fdiff rho_k1 rho_k2 p node ver flag2.
Proof. reflexivity. Qed.

(** C6: swapping [rho_k1] and [rho_k2] negates every component of the output
    of [radial_fdiff] (and leaves a failure unchanged), for every variant,
    in particular for variants 1 and 2. *)
Theorem radial_fdiff_swap_antisym (rho_k1 rho_k2 : vec) (p : rad_params)
    (node ver flag : Z) :
  radial_fdiff rho_k2 rho_k1 p node ver flag
  = rmap vneg (radial_fdiff rho_k1 rho_k2 p node ver flag).
Proof.
  unfold radial_fdiff.
  destruct (ver =? 1)%Z; [apply radial_base_swap|].
  destruct (ver =? 2)%Z; [|reflexivity].
  rewrite radial_base_swap.
  destruct (radial_base rho_k1 rho_k2 p node) as [b|e]; cbn -[py_index]; [|reflexivity].
  destruct (py_index (inv_r_j p) node) as [rj|e]; cbn -[py_index]; [|reflexivity].
  destruct (py_index (inv_t_shl p) node) as [ts|e]; simpl; [|reflexivity].
  f_equal; unfold vsmul, vneg; rewrite !map_map; apply map_ext; intros x.
  autorewrite with qopp; reflexivity.
Qed.

(** C4: for a node index in range of [1/r_j] and [1/t_shl], the output of
    variant 2 is the output of variant 1 with every component multiplied by
    [1/r_j[node]]^2 and then by [1/t_shl[node]] (both fail alike otherwise). *)
Theorem radial_fdiff_variant2_scaling (rho_k1 rho_k2 : vec) (p : rad_params)
    (node flag : Z) :
  (0 <= node < Z.of_nat (length (inv_r_j p)))%Z ->
  (0 <= node < Z.of_nat (length (inv_t_shl p)))%Z ->
  radial_fdiff rho_k1 rho_k2 p node 2 flag
  = rmap (map (fun x => x * nth (Z.to_nat node) (inv_r_j p) 0 ^ 2
                          * nth (Z.to_nat node) (inv_t_shl p) 0))
         (radial_fdiff rho_k1 rho_k2 p node 1 flag).
Proof.
  intros Hr Ht; unfold radial_fdiff; cbn -[radial_base py_index].
  destruct (radial_base rho_k1 rho_k2 p node) as [b|e]; cbn -[py_index]; [|reflexivity].
  rewrite (py_index_in _ _ Hr), (py_index_in _ _ Ht); simpl.
  unfold vsmul; rewrite map_map; reflexivity.
Qed.

Lemma radial_fdiff_variant2_scaling_witness :
  (0 <= 1 < Z.of_nat (length (inv_r_j rad_ex)))%Z /\
  (0 <= 1 < Z.of_nat (length (inv_t_shl rad_ex)))%Z /\
  radial_fdiff [3] [1] rad_ex 1 2 0
  = rmap (map (fun x => x * nth 1 (inv_r_j rad_ex) 0 ^ 2 * nth 1 (inv_t_shl rad_ex) 0))
         (radial_fdiff [3] [1] rad_ex 1 1 0).
Proof.
  split; [simpl; lia | split; [simpl; lia |]].
  apply (radial_fdiff_variant2_scaling [3] [1] rad_ex 1 0); simpl; lia.
Defined.

(** C2 (amended): every variant other than 1 and 2 makes [radial_fdiff]
    fail, with UnboundLocalError raised by [return drho_dt]; no value is
    ever returned for such a variant. *)
Theorem radial_fdiff_unknown_variant_fails (rho_k1 rho_k2 : vec) (p : rad_params)
    (node ver flag : Z) :
  ver <> 1%Z -> ver <> 2%Z ->
  radial_fdiff rho_k1 rho_k2 p node ver flag = Err UnboundLocalError.
Proof.
  intros H1 H2; unfold radial_fdiff.
  rewrite (proj2 (Z.eqb_neq ver 1) H1), (proj2 (Z.eqb_neq ver 2) H2); reflexivity.
Qed.

Lemma radial_fdiff_unknown_variant_fails_witness :
  (3 <> 1 /\ 3 <> 2)%Z /\ radial_fdiff [1] [0] rad_ex 0 3 0 = Err UnboundLocalError.
Proof.
  split; [lia|].
  apply (radial_fdiff_unknown_variant_fails [1] [0] rad_ex 0 3 0); lia.
Defined.

(** C2 counterexample: with variant 3 the call does not fail with an
    invalid-argument error (it raises UnboundLocalError). *)
Lemma radial_fdiff_variant3_not_invalid_argument :
  ~ invalid_argument_failure (radial_fdiff [1] [0] rad_ex 0 3 0).
Proof. unfold invalid_argument_failure; vm_compute; discriminate. Qed.

(** C9 (amended): for variant 1 or 2 and species vectors of equal length,
    [radial_fdiff] fails with IndexError exactly when [node] lies outside
    Python's index range [-len, len) of one of the arrays it reads: [r_jph]
    and [1/dr], and for variant 2 also [1/r_j] and [1/t_shl].  A negative
    [node] in [-len, 0) is not rejected. *)
Theorem radial_fdiff_index_error_iff (rho_k1 rho_k2 : vec) (p : rad_params)
    (node ver flag : Z) :
  (ver = 1 \/ ver = 2)%Z -> length rho_k1 = length rho_k2 ->
  (radial_fdiff rho_k1 rho_k2 p node ver flag = Err IndexError <->
   py_oob (r_jph p) node \/ py_oob (inv_dr p) node \/
   (ver = 2%Z /\ (py_oob (inv_r_j p) node \/ py_oob (inv_t_shl p) node))).
Proof.
  intros Hv Hl.
  assert (Hs : np_sub rho_k1 rho_k2 = Ok (vzip Qminus rho_k1 rho_k2))
    by (apply np_zip_eq_length; exact Hl).
  destruct Hv as [-> | ->]; unfold radial_fdiff, radial_base; cbn -[py_index np_sub];
    rewrite ?Hs;
    destruct (py_index_cases (r_jph p) node) as [[x [Hx Ox]]|[Hx Ox]]; rewrite Hx;
    cbn -[py_index];
    destruct (py_index_cases (inv_dr p) node) as [[y [Hy Oy]]|[Hy Oy]]; rewrite ?Hy;
    cbn -[py_index];
    try (destruct (py_index_cases (inv_r_j p) node) as [[z [Hz Oz]]|[Hz Oz]]; rewrite Hz;
         cbn -[py_index];
         destruct (py_index_cases (inv_t_shl p) node) as [[w [Hw Ow]]|[Hw Ow]]; rewrite ?Hw;
         cbn -[py_index]);
    split; intros H; try discriminate; try reflexivity; intuition congruence.
Qed.

Lemma radial_fdiff_index_error_iff_witness :
  radial_fdiff [1] [0] rad_ex 5 1 0 = Err IndexError.
Proof.
  apply (proj2 (radial_fdiff_index_error_iff [1] [0] rad_ex 5 1 0 (or_introl eq_refl) eq_refl)).
  left; unfold py_oob; simpl; lia.
Defined.

(** C9 counterexample: node -1 is outside [0, len) of every array of
    [rad_ex], yet the call returns a value, the one computed from the last
    elements (node 1). *)
Lemma radial_fdiff_negative_node_accepted :
  ~ (0 <= -1 < Z.of_nat (length (r_jph rad_ex)))%Z /\
  (exists v, radial_fdiff [1] [0] rad_ex (-1) 1 0 = Ok v) /\
  radial_fdiff [1] [0] rad_ex (-1) 1 0 = radial_fdiff [1] [0] rad_ex 1 1 0.
Proof.
  split; [simpl; lia|split; [eexists; reflexivity | vm_compute; reflexivity]].
Qed.

(** ** Running [fickian_adf] *)

(** the properties the provider reports for a state *)
Definition props_at (gasobj : provider) (s : TDY) : node_props :=
  mkProps (mix_diff_coeffs_mass gasobj s) (density_mass gasobj s)
          (viscosity gasobj s) (pressure gasobj s) (mass_fractions gasobj s).

(** Well-formed provider: [n] species, arrays of length [n] and positive
    viscosity in every state it accepts. *)
Definition provider_wf (gasobj : provider) (n : nat) : Prop :=
  forall s, tdy_ok gasobj s = true ->
    length (mix_diff_coeffs_mass gasobj s) = n /\
    length (mass_fractions gasobj s) = n /\
    0 < viscosity gasobj s.

(** Well-formed weights: fractions of the node spacing. *)
Definition valid_weights (p : adf_params) : Prop :=
  0 <= wt1 p /\ 0 <= wt2 p /\ wt1 p + wt2 p == 1.

Lemma fickian_adf_run (gasobj : provider) (TDY1 TDY2 : TDY) (p : adf_params)
    (tog : Q) (g : gas) :
  tdy_ok gasobj TDY1 = true -> tdy_ok gasobj TDY2 = true ->
  fickian_adf TDY1 TDY2 gasobj p tog g
  = (adf_flux (props_at gasobj TDY1) (props_at gasobj TDY2) p tog,
     mkGas TDY2 ((gas_sets g ++ [TDY1]) ++ [TDY2])).
Proof.
  intros H1 H2.
  unfold fickian_adf, bind, set_TDY, read_props, get, ret, lift; rewrite H1, H2.
  reflexivity.
Qed.

(** closed forms of the two driving terms for arrays of equal length *)
Definition avg_vec (p : adf_params) (u1 u2 : vec) : vec :=
  vzip Qplus (svmul (wt1 p) u1) (svmul (wt2 p) u2).

Definition avg (p : adf_params) (x1 x2 : Q) : Q := wt1 p * x1 + wt2 p * x2.

Definition J_conv_vec (s1 s2 : node_props) (p : adf_params) : vec :=
  vsdiv (vsmul (vsmul (vsmul
    (vneg (avg_vec p (svmul (pr_rho s1) (pr_Y s1)) (svmul (pr_rho s2) (pr_Y s2))))
    (K_g p)) (pr_P s2 - pr_P s1)) (inv_dy p)) (avg p (pr_mu s1) (pr_mu s2)).

Definition J_diff_vec (s1 s2 : node_props) (p : adf_params) : vec :=
  vsmul (vzip Qmult
    (vsmul (svmul (- eps_tau2 p) (avg_vec p (pr_D_k s1) (pr_D_k s2)))
           (avg p (pr_rho s1) (pr_rho s2)))
    (vzip Qminus (pr_Y s2) (pr_Y s1))) (inv_dy p).

Ltac len :=
  unfold J_conv_vec, J_diff_vec, avg_vec, svmul, vsmul, vsdiv, vneg;
  repeat (rewrite length_map || rewrite vzip_length); lia.

Section Lengths.
Variables (s1 s2 : node_props) (p : adf_params) (n : nat).
Hypotheses (HD1 : length (pr_D_k s1) = n) (HD2 : length (pr_D_k s2) = n)
           (HY1 : length (pr_Y s1) = n) (HY2 : length (pr_Y s2) = n).

Lemma adf_terms_eq : adf_terms s1 s2 p = Ok (J_conv_vec s1 s2 p, J_diff_vec s1 s2 p).
Proof.
  unfold adf_terms, np_add, np_sub, np_mul.
  rewrite np_zip_eq_length by len; cbv beta iota zeta delta [rbind].
  rewrite np_zip_eq_length by len; cbv beta iota zeta delta [rbind].
  rewrite np_zip_eq_length by len; cbv beta iota zeta delta [rbind].
  rewrite np_zip_eq_length by len.
  reflexivity.
Qed.

Lemma J_conv_vec_length : length (J_conv_vec s1 s2 p) = n.
Proof. len. Qed.

Lemma J_diff_vec_length : length (J_diff_vec s1 s2 p) = n.
Proof. len. Qed.

Lemma adf_flux_eq (tog : Q) :
  adf_flux s1 s2 p tog
  = Ok (svmul tog (vzip Qplus (J_conv_vec s1 s2 p) (J_diff_vec s1 s2 p))).
Proof.
  unfold adf_flux; rewrite adf_terms_eq; cbv beta iota delta [rbind].
  unfold np_add; rewrite np_zip_eq_length
    by (rewrite J_conv_vec_length, J_diff_vec_length; reflexivity).
  reflexivity.
Qed.

End Lengths.

(** ** The flux formula as the specification writes it, per species [k]

    J_conv = -rho_k K_g (P2 - P1) (1/dy) / mu,
    J_diff = -(eps/tau2) D_k rho (Y2 - Y1) (1/dy),
    with D_k, rho, mu, rho_k the wt1/wt2-weighted averages of the two
    nodes' properties and rho_k_i = rho_i Y_i. *)
Definition adf_conv_spec (s1 s2 : node_props) (p : adf_params) (k : nat) : Q :=
  let rho_k := wt1 p * (pr_rho s1 * nth k (pr_Y s1) 0)
             + wt2 p * (pr_rho s2 * nth k (pr_Y s2) 0) in
  let mu := wt1 p * pr_mu s1 + wt2 p * pr_mu s2 in
  - rho_k * K_g p * (pr_P s2 - pr_P s1) * inv_dy p / mu.

Definition adf_diff_spec (s1 s2 : node_props) (p : adf_params) (k : nat) : Q :=
  let D_k := wt1 p * nth k (pr_D_k s1) 0 + wt2 p * nth k (pr_D_k s2) 0 in
  let rho := wt1 p * pr_rho s1 + wt2 p * pr_rho s2 in
  - eps_tau2 p * D_k * rho * (nth k (pr_Y s2) 0 - nth k (pr_Y s1) 0) * inv_dy p.

Definition adf_component_spec (s1 s2 : node_props) (p : adf_params) (tog : Q)
    (k : nat) : Q :=
  tog * (adf_conv_spec s1 s2 p k + adf_diff_spec s1 s2 p k).

Ltac nth_simpl :=
  repeat first [ rewrite map_nth_lt by len | rewrite vzip_nth by len ].

Section Components.
Variables (s1 s2 : node_props) (p : adf_params) (n : nat).
Hypotheses (HD1 : length (pr_D_k s1) = n) (HD2 : length (pr_D_k s2) = n)
           (HY1 : length (pr_Y s1) = n) (HY2 : length (pr_Y s2) = n).

Lemma J_conv_vec_nth (k : nat) :
  (k < n)%nat -> nth k (J_conv_vec s1 s2 p) 0 = adf_conv_spec s1 s2 p k.
Proof.
  intros Hk; unfold J_conv_vec, avg_vec, avg, vsdiv, vsmul, vneg, svmul.
  nth_simpl; reflexivity.
Qed.

Lemma J_diff_vec_nth (k : nat) :
  (k < n)%nat -> nth k (J_diff_vec s1 s2 p) 0 = adf_diff_spec s1 s2 p k.
Proof.
  intros Hk; unfold J_diff_vec, avg_vec, avg, vsdiv, vsmul, vneg, svmul.
  nth_simpl; reflexivity.
Qed.

End Components.

(** ** Negation through the array operations *)

Lemma map_vneg_comm (f : Q -> Q) (v : vec) :
  (forall x, f (- x) = - f x) -> map f (vneg v) = vneg (map f v).
Proof. intros Hf; unfold vneg; rewrite !map_map; apply map_ext; exact Hf. Qed.

Lemma vzip_mult_vneg_r (u v : vec) : vzip Qmult u (vneg v) = vneg (vzip Qmult u v).
Proof.
  revert v; induction u as [|a u IH]; intros [|b v]; simpl; try reflexivity.
  rewrite IH, Qmult_opp_r_eq; reflexivity.
Qed.

Lemma vzip_plus_vneg (u v : vec) : vzip Qplus (vneg u) (vneg v) = vneg (vzip Qplus u v).
Proof.
  revert v; induction u as [|a u IH]; intros [|b v]; simpl; try reflexivity.
  rewrite IH, Qplus_opp_eq; reflexivity.
Qed.

(** [p] with its two weights exchanged *)
Definition swap_wts (p : adf_params) : adf_params :=
  mkAdfParams (wt2 p) (wt1 p) (K_g p) (inv_dy p) (eps_tau2 p).

Lemma avg_vec_swap (p : adf_params) (u1 u2 : vec) :
  avg_vec (swap_wts p) u2 u1 = avg_vec p u1 u2.
Proof. unfold avg_vec; simpl; apply vzip_plus_comm. Qed.

Lemma avg_swap (p : adf_params) (x1 x2 : Q) : avg (swap_wts p) x2 x1 = avg p x1 x2.
Proof. unfold avg; simpl; apply Qplus_comm_eq. Qed.

Lemma J_conv_vec_swap (s1 s2 : node_props) (p : adf_params) :
  J_conv_vec s2 s1 (swap_wts p) = vneg (J_conv_vec s1 s2 p).
Proof.
  unfold J_conv_vec; rewrite avg_vec_swap, avg_swap.
  change (K_g (swap_wts p)) with (K_g p); change (inv_dy (swap_wts p)) with (inv_dy p).
  rewrite (Qminus_swap_eq (pr_P s2) (pr_P s1)).
  unfold vsdiv, vsmul, vneg; rewrite !map_map; apply map_ext; intros x.
  autorewrite with qopp; reflexivity.
Qed.

Lemma J_diff_vec_swap (s1 s2 : node_props) (p : adf_params) :
  J_diff_vec s2 s1 (swap_wts p) = vneg (J_diff_vec s1 s2 p).
Proof.
  unfold J_diff_vec; rewrite avg_vec_swap, avg_swap.
  change (eps_tau2 (swap_wts p)) with (eps_tau2 p); change (inv_dy (swap_wts p)) with (inv_dy p).
  rewrite (vzip_minus_swap (pr_Y s2) (pr_Y s1)), vzip_mult_vneg_r.
  apply map_vneg_comm; intros x; apply Qmult_opp_l_eq.
Qed.

(** ** Example provider: the single-species scenario of the specification

    D_k = 2e-5, density 1.0, viscosity 2e-5, Y = [1.0] in every state; the
    reported pressure is 101325 Pa at density 1.0 and 101300 Pa otherwise. *)
Definition pv_c8 : provider :=
  mkProvider (fun _ => true) (fun _ => [2 # 100000]) (fun _ => 1) (fun _ => 2 # 100000)
    (fun s => if Qeq_bool (D s) 1 then 101325 else 101300) (fun _ => [1]).

(** wt1 = wt2 = 0.5, K_g = 1e-12, 1/dy = 100, eps/tau2 = 0.5 *)
Definition p_c8 : adf_params := mkAdfParams (1 # 2) (1 # 2) (1 # 1000000000000) 100 (1 # 2).

Definition tdy_c8 : TDY := mkTDY 350 1 [1].
Definition tdy_c8b : TDY := mkTDY 350 (4052 # 4053) [1].
Definition gas0 : gas := mkGas (mkTDY 300 1 [1]) [].

Definition c7_out : vec :=
  Eval vm_compute in
    match fst (fickian_adf tdy_c8 tdy_c8b pv_c8 p_c8 1 gas0) with Ok v => v | Err _ => [] end.
Definition c7_gas : gas := Eval vm_compute in snd (fickian_adf tdy_c8 tdy_c8b pv_c8 p_c8 1 gas0).

(** ** Properties of [fickian_adf] *)

(** C1: for a well-formed provider with [n] species, well-formed weights and
    two states the provider accepts, [fickian_adf] returns an array of [n]
    fluxes whose component [k] is tog * (J_conv_k + J_diff_k), with
    J_conv = -rho_k K_g (P2 - P1) (1/dy) / mu and
    J_diff = -(eps/tau2) D_k rho (Y2 - Y1) (1/dy), the averages taken with
    wt1/wt2 over the properties the provider reports for the two states. *)
Theorem fickian_adf_flux_formula (gasobj : provider) (n : nat) (TDY1 TDY2 : TDY)
    (p : adf_params) (tog : Q) (g : gas) :
  provider_wf gasobj n -> valid_weights p ->
  tdy_ok gasobj TDY1 = true -> tdy_ok gasobj TDY2 = true ->
  exists out,
    fst (fickian_adf TDY1 TDY2 gasobj p tog g) = Ok out /\ length out = n /\
    forall k, (k < n)%nat ->
      nth k out 0 = adf_component_spec (props_at gasobj TDY1) (props_at gasobj TDY2) p tog k.
Proof.
  intros Hwf _ H1 H2.
  destruct (Hwf _ H1) as [HD1 [HY1 _]], (Hwf _ H2) as [HD2 [HY2 _]].
  rewrite fickian_adf_run by assumption; simpl fst.
  rewrite (adf_flux_eq _ _ _ n) by assumption.
  assert (Hc : length (J_conv_vec (props_at gasobj TDY1) (props_at gasobj TDY2) p) = n)
    by (apply J_conv_vec_length; assumption).
  assert (Hd : length (J_diff_vec (props_at gasobj TDY1) (props_at gasobj TDY2) p) = n)
    by (apply J_diff_vec_length; assumption).
  eexists; split; [reflexivity | split].
  - unfold svmul; rewrite length_map, vzip_length, Hc, Hd; lia.
  - intros k Hk; unfold svmul.
    rewrite map_nth_lt by (rewrite vzip_length, Hc, Hd; lia).
    rewrite vzip_nth by lia.
    rewrite (J_conv_vec_nth _ _ _ n), (J_diff_vec_nth _ _ _ n) by assumption.
    reflexivity.
Qed.

Lemma fickian_adf_flux_formula_witness :
  exists out,
    fst (fickian_adf tdy_c8 tdy_c8b pv_c8 p_c8 1 gas0) = Ok out /\ length out = 1%nat /\
    forall k, (k < 1)%nat ->
      nth k out 0 = adf_component_spec (props_at pv_c8 tdy_c8) (props_at pv_c8 tdy_c8b) p_c8 1 k.
Proof.
  apply (fickian_adf_flux_formula pv_c8 1 tdy_c8 tdy_c8b p_c8 1 gas0).
  - intros s _; split; [reflexivity | split; [reflexivity | vm_compute; reflexivity]].
  - unfold valid_weights; simpl; split; [discriminate | split; [discriminate | reflexivity]].
  - reflexivity.
  - reflexivity.
Defined.

(** C5: exchanging the two states and the two weights negates every
    component of the flux returned by [fickian_adf]. *)
Theorem fickian_adf_swap_antisym (gasobj : provider) (n : nat) (TDY1 TDY2 : TDY)
    (p : adf_params) (tog : Q) (g : gas) :
  provider_wf gasobj n -> valid_weights p ->
  tdy_ok gasobj TDY1 = true -> tdy_ok gasobj TDY2 = true ->
  fst (fickian_adf TDY2 TDY1 gasobj (swap_wts p) tog g)
  = rmap vneg (fst (fickian_adf TDY1 TDY2 gasobj p tog g)).
Proof.
  intros Hwf _ H1 H2.
  destruct (Hwf _ H1) as [HD1 [HY1 _]], (Hwf _ H2) as [HD2 [HY2 _]].
  rewrite !fickian_adf_run by assumption; simpl fst.
  rewrite (adf_flux_eq _ _ _ n), (adf_flux_eq _ _ _ n) by assumption.
  simpl; f_equal.
  rewrite J_conv_vec_swap, J_diff_vec_swap, vzip_plus_vneg.
  apply map_vneg_comm; intros x; apply Qmult_opp_r_eq.
Qed.

Lemma fickian_adf_swap_antisym_witness :
  fst (fickian_adf tdy_c8b tdy_c8 pv_c8 (swap_wts p_c8) 1 gas0)
  = rmap vneg (fst (fickian_adf tdy_c8 tdy_c8b pv_c8 p_c8 1 gas0)).
Proof.
  apply (fickian_adf_swap_antisym pv_c8 1).
  - intros s _; split; [reflexivity | split; [reflexivity | vm_compute; reflexivity]].
  - unfold valid_weights; simpl; split; [discriminate | split; [discriminate | reflexivity]].
  - reflexivity.
  - reflexivity.
Defined.

(** C7: when [fickian_adf] returns, the provider's state is [TDY2], exactly
    two states were assigned to it, [TDY1] then [TDY2], and nothing else of
    the [gas] object changed. *)
Theorem fickian_adf_frame (gasobj : provider) (TDY1 TDY2 : TDY) (p : adf_params)
    (tog : Q) (g : gas) (out : vec) (g' : gas) :
  fickian_adf TDY1 TDY2 gasobj p tog g = (Ok out, g') ->
  g' = mkGas TDY2 (gas_sets g ++ [TDY1; TDY2]).
Proof.
  intros H.
  destruct (tdy_ok gasobj TDY1) eqn:E1.
  - destruct (tdy_ok gasobj TDY2) eqn:E2.
    + rewrite fickian_adf_run in H by assumption.
      destruct (adf_flux (props_at gasobj TDY1) (props_at gasobj TDY2) p tog);
        inversion H; subst.
      rewrite <- app_assoc; reflexivity.
    + cbv beta iota delta [fickian_adf bind set_TDY read_props get ret lift] in H.
      rewrite E1, E2 in H; discriminate.
  - cbv beta iota delta [fickian_adf bind set_TDY read_props get ret lift] in H.
    rewrite E1 in H; discriminate.
Qed.

Lemma fickian_adf_frame_witness :
  fickian_adf tdy_c8 tdy_c8b pv_c8 p_c8 1 gas0 = (Ok c7_out, c7_gas) /\
  c7_gas = mkGas tdy_c8b (gas_sets gas0 ++ [tdy_c8; tdy_c8b]).
Proof.
  assert (H : fickian_adf tdy_c8 tdy_c8b pv_c8 p_c8 1 gas0 = (Ok c7_out, c7_gas))
    by (vm_compute; reflexivity).
  split; [exact H | exact (fickian_adf_frame _ _ _ _ _ _ _ _ H)].
Defined.

(** C8 (amended): in the single-species scenario (D_k = 2e-5, density 1.0,
    viscosity 2e-5, Y = [1.0] at both nodes; wt1 = wt2 = 0.5, K_g = 1e-12,
    1/dy = 100, eps/tau2 = 0.5, tog = 1) the diffusive term is zero and the
    output is the advective term, (P1 - P2) / 200000 for the pressures P1,
    P2 the provider reports for the two states: +1.25e-4 for 101325 and
    101300, and 0 when the two states are the same. *)
Theorem fickian_adf_scenario (gasobj : provider) (TDY1 TDY2 : TDY) (g : gas) :
  tdy_ok gasobj TDY1 = true -> tdy_ok gasobj TDY2 = true ->
  (forall s, s = TDY1 \/ s = TDY2 ->
     mix_diff_coeffs_mass gasobj s = [2 # 100000] /\ density_mass gasobj s = 1 /\
     viscosity gasobj s = 2 # 100000 /\ mass_fractions gasobj s = [1]) ->
  exists c d o,
    adf_terms (props_at gasobj TDY1) (props_at gasobj TDY2) p_c8 = Ok ([c], [d]) /\
    d == 0 /\
    c == (pressure gasobj TDY1 - pressure gasobj TDY2) / 200000 /\
    fst (fickian_adf TDY1 TDY2 gasobj p_c8 1 g) = Ok [o] /\ o == c.
Proof.
  intros H1 H2 Hs.
  destruct (Hs _ (or_introl eq_refl)) as [HD1 [Hr1 [Hm1 HY1]]].
  destruct (Hs _ (or_intror eq_refl)) as [HD2 [Hr2 [Hm2 HY2]]].
  assert (Ht : adf_terms (props_at gasobj TDY1) (props_at gasobj TDY2) p_c8
               = Ok (J_conv_vec (props_at gasobj TDY1) (props_at gasobj TDY2) p_c8,
                     J_diff_vec (props_at gasobj TDY1) (props_at gasobj TDY2) p_c8))
    by (apply (adf_terms_eq _ _ _ 1); simpl; rewrite ?HD1, ?HD2, ?HY1, ?HY2; reflexivity).
  rewrite Ht, fickian_adf_run by assumption; simpl fst.
  rewrite (adf_flux_eq _ _ _ 1) by (simpl; rewrite ?HD1, ?HD2, ?HY1, ?HY2; reflexivity).
  unfold J_conv_vec, J_diff_vec, avg_vec, avg, props_at; simpl pr_D_k; simpl pr_Y;
    simpl pr_rho; simpl pr_mu; simpl pr_P.
  rewrite HD1, HD2, HY1, HY2, Hr1, Hr2, Hm1, Hm2; simpl.
  do 3 eexists; split; [reflexivity|].
  split; [| split; [| split; [reflexivity|]]].
  - ring.
  - field.
  - ring.
Qed.

Lemma fickian_adf_scenario_witness :
  exists c d o,
    adf_terms (props_at pv_c8 tdy_c8) (props_at pv_c8 tdy_c8b) p_c8 = Ok ([c], [d]) /\
    d == 0 /\
    c == (pressure pv_c8 tdy_c8 - pressure pv_c8 tdy_c8b) / 200000 /\
    fst (fickian_adf tdy_c8 tdy_c8b pv_c8 p_c8 1 gas0) = Ok [o] /\ o == c.
Proof.
  apply (fickian_adf_scenario pv_c8 tdy_c8 tdy_c8b gas0); [reflexivity | reflexivity |].
  intros s _; split; [reflexivity | split; [reflexivity | split; reflexivity]].
Defined.

(** C8 counterexample: the output is not -0.125, neither for the scenario
    taken literally (the same TDY state at both nodes, so P1 = P2; output
    0) nor with the provider reporting P1 = 101325 and P2 = 101300 for two
    states (output +1.25e-4). *)
Lemma fickian_adf_scenario_not_minus_0125 :
  (exists o, fst (fickian_adf tdy_c8 tdy_c8 pv_c8 p_c8 1 gas0) = Ok [o] /\
             o == 0 /\ ~ (o == - (1 # 8))) /\
  (exists o, fst (fickian_adf tdy_c8 tdy_c8b pv_c8 p_c8 1 gas0) = Ok [o] /\
             o == 1 # 8000 /\ ~ (o == - (1 # 8))).
Proof.
  split; eexists; (split; [reflexivity|]);
    (split; [vm_compute; reflexivity | vm_compute; discriminate]).
Qed.

(** * Further properties of the two kernels *)

Lemma np_zip_mismatch (f : Q -> Q -> Q) (u v : vec) :
  length u <> length v -> length u <> 1%nat -> length v <> 1%nat ->
  np_zip f u v = Err ValueError.
Proof.
  intros H H1 H2; unfold np_zip.
  rewrite (proj2 (Nat.eqb_neq _ _) H).
  destruct u as [|a [|a' u]], v as [|b [|b' v]]; simpl in *; try lia; reflexivity.
Qed.

(** X4: the value [fickian_adf] returns (flux or exception) does not depend
    on the provider's state before the call: every property is read after
    the state has been assigned. *)
Theorem fickian_adf_prior_state_irrelevant (gasobj : provider) (TDY1 TDY2 : TDY)
    (p : adf_params) (tog : Q) (g1 g2 : gas) :
  fst (fickian_adf TDY1 TDY2 gasobj p tog g1) = fst (fickian_adf TDY1 TDY2 gasobj p tog g2).
Proof.
  cbv beta iota delta [fickian_adf bind set_TDY read_props get ret lift].
  destruct (tdy_ok gasobj TDY1); [|reflexivity].
  destruct (tdy_ok gasobj TDY2); reflexivity.
Qed.

(** X6: for variant 1 or 2, species arrays whose lengths differ and neither
    of which has length 1 cannot be broadcast: once [r_jph[node]] has been
    read, the subtraction [rho_k1 - rho_k2] raises ValueError, before
    [1/dr] is indexed. *)
Theorem radial_fdiff_species_mismatch (rho_k1 rho_k2 : vec) (p : rad_params)
    (node ver flag : Z) :
  (ver = 1 \/ ver = 2)%Z ->
  length rho_k1 <> length rho_k2 -> length rho_k1 <> 1%nat -> length rho_k2 <> 1%nat ->
  ~ py_oob (r_jph p) node ->
  radial_fdiff rho_k1 rho_k2 p node ver flag = Err ValueError.
Proof.
  intros Hv Hl H1 H2 Hr.
  assert (Hs : np_sub rho_k1 rho_k2 = Err ValueError) by (apply np_zip_mismatch; assumption).
  destruct (py_index_cases (r_jph p) node) as [[x [Hx _]]|[_ Ho]]; [|contradiction].
  destruct Hv as [-> | ->]; unfold radial_fdiff, radial_base; cbn -[py_index np_sub];
    rewrite Hx; cbn -[py_index np_sub]; rewrite Hs; reflexivity.
Qed.

Lemma radial_fdiff_species_mismatch_witness :
  radial_fdiff [1; 2] [1; 2; 3] rad_ex 0 2 0 = Err ValueError.
Proof.
  apply radial_fdiff_species_mismatch; unfold py_oob; simpl; lia.
Defined.

(** * The enable flag of [fickian_adf] in binary64

    The gating [tog*(J_conv + J_diff)] of line 56, on the float64 copy
    [F64] of the kernel.  The IEEE-754 semantics of the primitive
    operations is that of Rocq's [FloatAxioms] ([Prim2SF] maps a float to
    its sign-mantissa-exponent form, [SF64mul] is IEEE multiplication with
    rounding to nearest even). *)

Import PrimFloat SpecFloat FloatOps FloatAxioms.
Open Scope float_scope.

Lemma Prim2SF_one : Prim2SF 1 = S754_finite false 4503599627370496 (-52).
Proof. vm_compute. reflexivity. Qed.

Lemma Prim2SF_zero : Prim2SF 0 = S754_zero false.
Proof. vm_compute. reflexivity. Qed.

Lemma Prim2SF_infinity : Prim2SF infinity = S754_infinity false.
Proof. vm_compute. reflexivity. Qed.

(** 1.0 is 2^52 * 2^-52: multiplying by it shifts the mantissa left by 52
    bits, which the rounding shifts back exactly. *)
Lemma digits2_pos_shift (m : positive) :
  Zpos (digits2_pos (Pos.mul 4503599627370496 m)) = (Zpos (digits2_pos m) + 52)%Z.
Proof. cbn [Pos.mul digits2_pos]; rewrite !Pos2Z.inj_succ; lia. Qed.

Lemma binary_round_aux_shift (s : bool) (m : positive) (e : Z) :
  valid_binary (S754_finite s m e) = true ->
  binary_round_aux prec emax s (Zpos (Pos.mul 4503599627370496 m)) (-52 + e) loc_Exact
  = S754_finite s m e.
Proof.
  unfold valid_binary, bounded, canonical_mantissa.
  intros H; apply andb_true_iff in H; destruct H as [Hc Hb].
  apply Z.eqb_eq in Hc; apply Z.leb_le in Hb.
  unfold binary_round_aux, shr_fexp.
  change (Zdigits2 (Zpos (Pos.mul 4503599627370496 m)))
    with (Zpos (digits2_pos (Pos.mul 4503599627370496 m))).
  rewrite digits2_pos_shift.
  replace (fexp prec emax (Zpos (digits2_pos m) + 52 + (-52 + e)) - (-52 + e))%Z with 52%Z
    by (replace (Zpos (digits2_pos m) + 52 + (-52 + e))%Z with (Zpos (digits2_pos m) + e)%Z
          by lia; lia).
  cbn [shr shr_record_of_loc].
  replace (-52 + e + 52)%Z with e by lia.
  cbv [Pos.mul iter_pos shr_1 orb].
  cbn [shr_m loc_of_shr_record round_nearest_even Zdigits2].
  rewrite Hc, Z.sub_diag; cbn [shr shr_m].
  apply Z.leb_le in Hb; rewrite Hb; reflexivity.
Qed.

(** [1.0 * x] is [x], bit for bit, for every float (zeros, infinities and
    nan included). *)
Lemma f64_mul_one (x : float) : 1 * x = x.
Proof.
  apply Prim2SF_inj; rewrite mul_spec, Prim2SF_one.
  pose proof (Prim2SF_valid x) as Hv.
  destruct (Prim2SF x) as [s|s| |s m e]; try reflexivity.
  unfold SF64mul, SFmul; cbn [xorb].
  apply binary_round_aux_shift; exact Hv.
Qed.

Lemma SFeqb_finite_refl (s : bool) (m : positive) (e : Z) :
  SFeqb (S754_finite s m e) (S754_finite s m e) = true.
Proof.
  unfold SFeqb, SFcompare; rewrite Z.compare_refl.
  change (Pos.compare_cont Eq m m) with (Pos.compare m m); rewrite Pos.compare_refl.
  destruct s; reflexivity.
Qed.

Lemma f64_is_nan_spec (x : float) : is_nan x = negb (SFeqb (Prim2SF x) (Prim2SF x)).
Proof. unfold is_nan; rewrite eqb_spec; reflexivity. Qed.

Lemma f64_is_infinity_spec (x : float) :
  is_infinity x = SFeqb (SFabs (Prim2SF x)) (S754_infinity false).
Proof. unfold is_infinity; rewrite eqb_spec, abs_spec, Prim2SF_infinity; reflexivity. Qed.

(** a float is finite when it is a zero or a finite non-zero number *)
Lemma f64_is_finite_spec (x : float) :
  is_finite x = match Prim2SF x with
                | S754_zero _ | S754_finite _ _ _ => true
                | _ => false
                end.
Proof.
  unfold is_finite; rewrite f64_is_nan_spec, f64_is_infinity_spec.
  destruct (Prim2SF x) as [s|s| |s m e]; try reflexivity.
  - destruct s; reflexivity.
  - rewrite SFeqb_finite_refl; reflexivity.
Qed.

(** [0.0 * x] is a zero (+0 or -0, both equal to 0) for finite [x] ... *)
Lemma f64_mul_zero_finite (x : float) : is_finite x = true -> (0 * x =? 0) = true.
Proof.
  rewrite f64_is_finite_spec, eqb_spec, mul_spec, Prim2SF_zero.
  destruct (Prim2SF x); try discriminate; reflexivity.
Qed.

(** ... and nan for [x] infinite or nan. *)
Lemma f64_mul_zero_nonfinite (x : float) : is_finite x = false -> is_nan (0 * x) = true.
Proof.
  rewrite f64_is_finite_spec, f64_is_nan_spec, mul_spec, Prim2SF_zero.
  destruct (Prim2SF x); try discriminate; reflexivity.
Qed.

Lemma f64_svmul_one (v : F64.fvec) : F64.svmul 1 v = v.
Proof.
  unfold F64.svmul; rewrite <- (map_id v) at 2; apply map_ext; exact f64_mul_one.
Qed.

Lemma f64_fickian_adf_run (gasobj : F64.provider) (TDY1 TDY2 : F64.TDY)
    (p : F64.adf_params) (tog : float) (g : F64.gas) :
  F64.tdy_ok gasobj TDY1 = true -> F64.tdy_ok gasobj TDY2 = true ->
  fst (F64.fickian_adf TDY1 TDY2 gasobj p tog g)
  = rmap (F64.svmul tog) (F64.ungated (F64.props_at gasobj TDY1) (F64.props_at gasobj TDY2) p).
Proof.
  intros H1 H2.
  cbv beta iota delta [F64.fickian_adf F64.bind F64.set_TDY F64.read_props F64.get
                       F64.ret F64.lift].
  rewrite H1, H2; cbv beta iota; cbn [fst F64.gas_state].
  unfold F64.adf_flux, F64.ungated, F64.props_at.
  destruct (F64.adf_terms _ _ p) as [[Jc Jd]|e]; cbn [rbind]; [|reflexivity].
  destruct (F64.np_add Jc Jd); reflexivity.
Qed.

(** Example: the single-species input of the float64 overflow: viscosity 1,
    D_k = [1], Y = [1], density 1, pressure 1e10 in state 1 and 0 in state 2;
    weights 0.5 / 0.5, K_g = 1e300, 1/dy = 1, eps/tau2 = 1. *)
Definition pv_f64 : F64.provider :=
  F64.mkProvider (fun _ => true) (fun _ => [1]) (fun _ => 1) (fun _ => 1)
    (fun s => if F64.D s =? 1 then 1e10 else 0) (fun _ => [1]).

(* [1e300] denotes its nearest binary64 value, as the Python literal does. *)
Definition p_f64 : F64.adf_params := F64.mkAdfParams 0.5 0.5 1e300 1 1.

Definition tdy_f1 : F64.TDY := F64.mkTDY 350 1 [1].
Definition tdy_f2 : F64.TDY := F64.mkTDY 350 2 [1].
Definition gas_f0 : F64.gas := F64.mkGas tdy_f1 [].

(** C3 (amended): in float64, for every provider, parameters and pair of
    states the provider accepts, [tog = 1] returns exactly the un-gated sum
    J_conv + J_diff (also its exceptions).  [tog = 0] returns an array of the
    same length whose component [k] is a zero (+0 or -0) when component [k]
    of the un-gated sum is finite, and nan when it is infinite or nan: the
    output is the zero vector exactly when no component of J_conv + J_diff
    overflows or is nan. *)
Theorem fickian_adf_toggle_f64 (gasobj : F64.provider) (TDY1 TDY2 : F64.TDY)
    (p : F64.adf_params) (g : F64.gas) :
  F64.tdy_ok gasobj TDY1 = true -> F64.tdy_ok gasobj TDY2 = true ->
  fst (F64.fickian_adf TDY1 TDY2 gasobj p 1 g)
    = F64.ungated (F64.props_at gasobj TDY1) (F64.props_at gasobj TDY2) p /\
  forall J, F64.ungated (F64.props_at gasobj TDY1) (F64.props_at gasobj TDY2) p = Ok J ->
    exists out, fst (F64.fickian_adf TDY1 TDY2 gasobj p 0 g) = Ok out /\
      length out = length J /\
      forall k, (k < length J)%nat ->
        (is_finite (nth k J 0) = true -> (nth k out 0 =? 0) = true) /\
        (is_finite (nth k J 0) = false -> is_nan (nth k out 0) = true).
Proof.
  intros H1 H2; split.
  - rewrite f64_fickian_adf_run by assumption.
    destruct (F64.ungated _ _ p); cbn [rmap]; [rewrite f64_svmul_one|]; reflexivity.
  - intros J HJ; exists (F64.svmul 0 J).
    rewrite f64_fickian_adf_run, HJ by assumption.
    split; [reflexivity|].
    unfold F64.svmul; rewrite length_map; split; [reflexivity|].
    intros k Hk.
    rewrite (nth_indep (map (fun x => 0 * x) J) 0 (0 * 0)) by (rewrite length_map; exact Hk).
    rewrite (map_nth (fun x => 0 * x) J 0 k).
    split; [apply f64_mul_zero_finite | apply f64_mul_zero_nonfinite].
Qed.

Lemma fickian_adf_toggle_f64_witness :
  fst (F64.fickian_adf tdy_f1 tdy_f2 pv_f64 p_f64 1 gas_f0)
    = F64.ungated (F64.props_at pv_f64 tdy_f1) (F64.props_at pv_f64 tdy_f2) p_f64 /\
  forall J, F64.ungated (F64.props_at pv_f64 tdy_f1) (F64.props_at pv_f64 tdy_f2) p_f64 = Ok J ->
    exists out, fst (F64.fickian_adf tdy_f1 tdy_f2 pv_f64 p_f64 0 gas_f0) = Ok out /\
      length out = length J /\
      forall k, (k < length J)%nat ->
        (is_finite (nth k J 0) = true -> (nth k out 0 =? 0) = true) /\
        (is_finite (nth k J 0) = false -> is_nan (nth k out 0) = true).
Proof. apply fickian_adf_toggle_f64; reflexivity. Defined.

(** C3 counterexample: a well-formed single-species input (the provider
    accepts both states and reports viscosity 1; the weights 0.5 and 0.5 sum
    to 1) for which J_conv = -1 * 1e300 * (0 - 1e10) * 1 / 1 overflows to
    infinity: with [tog = 0] the output is [nan], not the zero vector. *)
Lemma fickian_adf_toggle_overflow_nan :
  F64.tdy_ok pv_f64 tdy_f1 = true /\ F64.tdy_ok pv_f64 tdy_f2 = true /\
  (0 <? F64.viscosity pv_f64 tdy_f1) = true /\ (0 <? F64.viscosity pv_f64 tdy_f2) = true /\
  (F64.wt1 p_f64 + F64.wt2 p_f64 =? 1) = true /\
  exists x, fst (F64.fickian_adf tdy_f1 tdy_f2 pv_f64 p_f64 0 gas_f0) = Ok [x] /\
    is_nan x = true /\ (x =? 0) = false.
Proof.
  repeat split; try (vm_compute; reflexivity).
  exists nan; repeat split; vm_compute; reflexivity.
Qed.
